(** * The finite-ridge loop of [notebooks/matplotlib_SciPy.ipynb]

    The fourth code cell of the notebook draws the finite edges of a Voronoi
    diagram by hand:
<<
    for edge in vor_ridges:
        if -1 in edge:
            continue
        edge_start = vor_vertices[edge[0]]
        edge_end = vor_vertices[edge[1]]
        ax_manual.plot([edge_start[0], edge_end[0]],
                       [edge_start[1], edge_end[1]],
                       color='black')
>>
    [vor_ridges] is [vor.ridge_vertices], a Python list of lists of ints;
    [vor_vertices] is [vor.vertices], a NumPy array of shape (n, 2).  The
    loop is embedded below as a computation over the list of lines held by
    [ax_manual], in a small state-and-exception monad. *)

From stdpp Require Import base decidable numbers option list strings.

(** ** Python values and exceptions *)

(** Both ways the cell can fail are Python's [IndexError]; the origin tells
    the list subscription [edge[k]] from the array subscription
    [vor_vertices[k]]. *)
Inductive index_origin : Type :=
  | list_index
  | array_axis0.

Inductive exn : Type :=
  | IndexError (o : index_origin).

(** [x in l] on a list of ints: the elements are compared with [x] from the
    left. *)
Fixpoint list_contains (x : Z) (l : list Z) : bool :=
  match l with
  | [] => false
  | y :: l' => (y =? x)%Z || list_contains x l'
  end.

(** [l[k]] on a list, for the literal subscripts [0] and [1] of the cell. *)
Definition list_getitem (l : list Z) (k : nat) : exn + Z :=
  match l !! k with
  | Some v => inr v
  | None => inl (IndexError list_index)
  end.

Section Renderer.

(** The coordinates are floats that the loop only moves around: no
    arithmetic and no comparison is done on them, so their type is left
    open. *)
Variable coord : Type.

(** A row of [vor.vertices]. *)
Definition Point : Type := coord * coord.
Definition VertexSet : Type := list Point.

(** An element of [vor.ridge_vertices]. *)
Definition Ridge : Type := list Z.
Definition RidgeList : Type := list Ridge.

(** What one call of [ax_manual.plot(xs, ys, color='black')] adds to the
    axes; the colour is the same for every call. *)
Record Line2D : Type := mkLine2D { xdata : list coord; ydata : list coord }.

(** [ax_manual.lines]. *)
Definition Axes : Type := list Line2D.

(** [a[k]] on the first axis of an array with [length a] rows: an index
    outside [-n <= k < n] raises, a negative one counts from the end. *)
Definition ndarray_getitem (a : VertexSet) (k : Z) : exn + Point :=
  let n := Z.of_nat (length a) in
  if ((k <? - n) || (n <=? k))%Z then inl (IndexError array_axis0)
  else
    let k' := if (k <? 0)%Z then (k + n)%Z else k in
    match a !! Z.to_nat k' with
    | Some p => inr p
    | None => inl (IndexError array_axis0)
    end.

(** *** The monad of the cell: the axes as state, exceptions as errors *)

Definition M (A : Type) : Type := Axes -> Axes * (exn + A).

Definition ret {A : Type} (a : A) : M A := fun ax => (ax, inr a).

Definition bind {A B : Type} (c : M A) (k : A -> M B) : M B :=
  fun ax =>
    match c ax with
    | (ax', inr a) => k a ax'
    | (ax', inl e) => (ax', inl e)
    end.

Definition lift {A : Type} (r : exn + A) : M A := fun ax => (ax, r).

Definition plot (xs ys : list coord) : M unit :=
  fun ax => (ax ++ [mkLine2D xs ys], inr tt).

Notation "'let!' x ':=' c 'in' k" := (bind c (fun x => k))
  (at level 10, x name, c at level 100, k at level 200, only parsing).

(** *** The loop *)

(** The body of the [for], for one [edge]; [continue] ends the body. *)
Definition ridge_body (vor_vertices : VertexSet) (edge : Ridge) : M unit :=
  if list_contains (-1) edge then ret tt
  else
    let! i := lift (list_getitem edge 0) in
    let! edge_start := lift (ndarray_getitem vor_vertices i) in
    let! j := lift (list_getitem edge 1) in
    let! edge_end := lift (ndarray_getitem vor_vertices j) in
    plot [edge_start.1; edge_end.1] [edge_start.2; edge_end.2].

(** [for edge in vor_ridges: ...]: an exception leaves the loop, and the
    lines plotted before it stay on the axes. *)
Fixpoint ridge_loop (vor_vertices : VertexSet) (vor_ridges : RidgeList) : M unit :=
  match vor_ridges with
  | [] => ret tt
  | edge :: rest =>
      let! _ := ridge_body vor_vertices edge in
      ridge_loop vor_vertices rest
  end.

(** ** The vocabulary of the specification *)

Definition Segment : Type := Point * Point.

(** The plot call that draws a segment from [s.1] to [s.2]. *)
Definition line_of (s : Segment) : Line2D :=
  mkLine2D [s.1.1; s.2.1] [s.1.2; s.2.2].

Definition sentinel : Z := (-1)%Z.

(** "0 <= index < |VertexSet|". *)
Definition valid_index (vs : VertexSet) (k : Z) : Prop :=
  (0 ≤ k < Z.of_nat (length vs))%Z.

(** A ridge is finite iff neither of its entries is the sentinel. *)
Definition finite (r : Ridge) : Prop := sentinel ∉ r.

(** A ridge of the data model: a pair, each entry the sentinel or a valid
    index. *)
Definition ridge_ok (vs : VertexSet) (r : Ridge) : Prop :=
  ∃ i j : Z, r = [i; j]
    ∧ (i = sentinel ∨ valid_index vs i)
    ∧ (j = sentinel ∨ valid_index vs j).

(** [s] is the segment of the ridge [r]: its start is the vertex at the
    first index of [r], its end the vertex at the second. *)
Definition segment_of_ridge (vs : VertexSet) (r : Ridge) (s : Segment) : Prop :=
  ∃ i j : Z, r = [i; j]
    ∧ valid_index vs i ∧ valid_index vs j
    ∧ vs !! Z.to_nat i = Some s.1 ∧ vs !! Z.to_nat j = Some s.2.

End Renderer.

Arguments mkLine2D {coord} _ _.
Arguments xdata {coord} _.
Arguments ydata {coord} _.
Arguments ndarray_getitem {coord} _ _.
Arguments ret {coord A} _ _.
Arguments bind {coord A B} _ _ _.
Arguments lift {coord A} _ _.
Arguments plot {coord} _ _ _.
Arguments ridge_body {coord} _ _ _.
Arguments ridge_loop {coord} _ _ _.
Arguments line_of {coord} _.
Arguments valid_index {coord} _ _.
Arguments ridge_ok {coord} _ _.
Arguments segment_of_ridge {coord} _ _ _.

#[global] Instance finite_dec (r : Ridge) : Decision (finite r).
Proof. unfold finite. apply _. Defined.

(** ** What the loop accepts *)

(** The indices NumPy resolves on an axis of [length vs] rows. *)
Definition in_range {coord : Type} (vs : VertexSet coord) (k : Z) : Prop :=
  (- Z.of_nat (length vs) ≤ k < Z.of_nat (length vs))%Z.

(** The ridges on which the body of the loop does not raise: those with the
    sentinel somewhere, and those with at least two entries of which the
    first two are resolved by the array. *)
Definition ridge_accepted {coord : Type} (vs : VertexSet coord) (r : Ridge) : Prop :=
  sentinel ∈ r
  ∨ ∃ (i j : Z) (extra : list Z),
      r = i :: j :: extra ∧ in_range vs i ∧ in_range vs j.

(** What the origin of an [IndexError] tells about the ridge that raised
    it: too few entries, or an entry the array does not resolve at one of
    the two places the body reads. *)
Definition ridge_fault {coord : Type} (vs : VertexSet coord) (r : Ridge)
    (o : index_origin) : Prop :=
  match o with
  | list_index => length r < 2
  | array_axis0 =>
      ∃ k : Z, (r !! 0 = Some k ∨ r !! 1 = Some k) ∧ ¬ in_range vs k
  end.

(** ** The cell around the loop

    The loop is the middle of the cell that builds the manual figure:
<<
    fig_manual = plt.figure()
    ax_manual = fig_manual.add_subplot(111)
    vor_vertices = vor.vertices
    ax_manual.scatter(vor_vertices[...,0], vor_vertices[...,1], color='orange')
    vor_ridges = vor.ridge_vertices
    for edge in vor_ridges: ...
    ax_manual.set_xlim(-3, 3)
    ax_manual.set_ylim(-3, 3)
    ax_manual.scatter(tree_positions[...,0], tree_positions[...,1], color='blue')
>>
    [vor] comes from [scipy.spatial.Voronoi] and [tree_positions] from
    [np.random.randn(15, 2)]; both are inputs here. *)

Section Cell.

Variable coord : Type.

(** Of the object returned by [scipy.spatial.Voronoi] the cell reads two
    attributes. *)
Record Voronoi : Type := mkVoronoi {
  vertices : VertexSet coord;
  ridge_vertices : RidgeList
}.

(** [a[..., 0]] and [a[..., 1]] on an array of shape (n, 2): its columns. *)
Definition column0 (a : VertexSet coord) : list coord := fst <$> a.
Definition column1 (a : VertexSet coord) : list coord := snd <$> a.

(** What one call of [ax.scatter(xs, ys, color=c)] adds to the axes.  Both
    arguments of every call of the cell are columns of one array, so the
    sizes agree and [scatter] does not raise. *)
Record PathCollection : Type := mkPathCollection {
  offsets_x : list coord;
  offsets_y : list coord;
  facecolor : string
}.

(** The axes of the manual figure: the scatter collections and the lines in
    the order they were added, and the view limits, [None] as long as they
    have not been set by hand. *)
Record AxesState : Type := mkAxesState {
  ax_collections : list PathCollection;
  ax_lines : Axes coord;
  ax_xlim : option (Z * Z);
  ax_ylim : option (Z * Z)
}.

(** [fig.add_subplot(111)] on a new figure. *)
Definition add_subplot : AxesState := mkAxesState [] [] None None.

Definition scatter (xs ys : list coord) (c : string) (st : AxesState) : AxesState :=
  mkAxesState (ax_collections st ++ [mkPathCollection xs ys c])
    (ax_lines st) (ax_xlim st) (ax_ylim st).

Definition set_xlim (lo hi : Z) (st : AxesState) : AxesState :=
  mkAxesState (ax_collections st) (ax_lines st) (Some (lo, hi)) (ax_ylim st).

Definition set_ylim (lo hi : Z) (st : AxesState) : AxesState :=
  mkAxesState (ax_collections st) (ax_lines st) (ax_xlim st) (Some (lo, hi)).

(** The loop run on the lines of the axes. *)
Definition plot_ridges (vor_vertices : VertexSet coord) (vor_ridges : RidgeList)
    (st : AxesState) : AxesState * (exn + unit) :=
  let '(lines, o) := ridge_loop vor_vertices vor_ridges (ax_lines st) in
  (mkAxesState (ax_collections st) lines (ax_xlim st) (ax_ylim st), o).

(** The cell; an exception of the loop ends it. *)
Definition manual_figure (tree_positions : VertexSet coord) (vor : Voronoi)
    : AxesState * (exn + unit) :=
  let ax_manual := add_subplot in
  let vor_vertices := vertices vor in
  let ax_manual :=
    scatter (column0 vor_vertices) (column1 vor_vertices) "orange" ax_manual in
  let vor_ridges := ridge_vertices vor in
  match plot_ridges vor_vertices vor_ridges ax_manual with
  | (ax_manual, inl e) => (ax_manual, inl e)
  | (ax_manual, inr _) =>
      let ax_manual := set_xlim (-3) 3 ax_manual in
      let ax_manual := set_ylim (-3) 3 ax_manual in
      let ax_manual :=
        scatter (column0 tree_positions) (column1 tree_positions) "blue" ax_manual in
      (ax_manual, inr tt)
  end.

End Cell.

Arguments mkVoronoi {coord} _ _.
Arguments vertices {coord} _.
Arguments ridge_vertices {coord} _.
Arguments column0 {coord} _.
Arguments column1 {coord} _.
Arguments mkPathCollection {coord} _ _ _.
Arguments offsets_x {coord} _.
Arguments offsets_y {coord} _.
Arguments facecolor {coord} _.
Arguments mkAxesState {coord} _ _ _ _.
Arguments ax_collections {coord} _.
Arguments ax_lines {coord} _.
Arguments ax_xlim {coord} _.
Arguments ax_ylim {coord} _.
Arguments add_subplot {coord}.
Arguments scatter {coord} _ _ _ _.
Arguments set_xlim {coord} _ _ _.
Arguments set_ylim {coord} _ _ _.
Arguments plot_ridges {coord} _ _ _.
Arguments manual_figure {coord} _ _.

(** The container types are aliases of [list]; stdpp's overloaded lookup
    is sensitive to the alias, so proofs start by exposing the lists. *)
Ltac expose_lists :=
  unfold VertexSet, RidgeList, Ridge, Axes in *.

(** ** Python primitives *)

Lemma list_contains_elem_of (x : Z) (l : list Z) :
  list_contains x l = true ↔ x ∈ l.
Proof.
  induction l as [|y l IH]; simpl.
  - split; [discriminate | intros H; inversion H].
  - rewrite orb_true_iff, IH, elem_of_cons, Z.eqb_eq. intuition congruence.
Qed.

Lemma list_contains_not_elem_of (x : Z) (l : list Z) :
  list_contains x l = false ↔ x ∉ l.
Proof.
  rewrite <- list_contains_elem_of. destruct (list_contains x l); intuition congruence.
Qed.

Section Properties.

Context {coord : Type}.
Implicit Types (vs : VertexSet coord) (rs : RidgeList) (r edge : Ridge).
Implicit Types (ax : Axes coord) (p q : Point coord) (s : Segment coord).
Implicit Types (i j k d : Z).

(** *** Array subscription *)

Lemma ndarray_getitem_valid vs k :
  valid_index vs k → ∃ p, vs !! Z.to_nat k = Some p ∧ ndarray_getitem vs k = inr p.
Proof.
  intros [H0 Hn]. unfold ndarray_getitem. cbv zeta. expose_lists.
  destruct (lookup_lt_is_Some_2 vs (Z.to_nat k)) as [p Hp]; [lia|].
  exists p. split; [done|].
  replace ((k <? - Z.of_nat (length vs)) || (Z.of_nat (length vs) <=? k))%Z
    with false by (symmetry; apply orb_false_iff; split; lia).
  replace (k <? 0)%Z with false by (symmetry; lia).
  by rewrite Hp.
Qed.

Lemma ndarray_getitem_negative vs k :
  (- Z.of_nat (length vs) ≤ k < 0)%Z →
  ∃ p, vs !! Z.to_nat (Z.of_nat (length vs) + k) = Some p
       ∧ ndarray_getitem vs k = inr p.
Proof.
  intros [Hn H0]. unfold ndarray_getitem. cbv zeta. expose_lists.
  destruct (lookup_lt_is_Some_2 vs (Z.to_nat (Z.of_nat (length vs) + k)))
    as [p Hp]; [lia|].
  exists p. split; [done|].
  replace ((k <? - Z.of_nat (length vs)) || (Z.of_nat (length vs) <=? k))%Z
    with false by (symmetry; apply orb_false_iff; split; lia).
  replace (k <? 0)%Z with true by (symmetry; lia).
  by rewrite Z.add_comm, Hp.
Qed.

Lemma ndarray_getitem_out vs k :
  (k < - Z.of_nat (length vs) ∨ Z.of_nat (length vs) ≤ k)%Z →
  ndarray_getitem vs k = inl (IndexError array_axis0).
Proof.
  intros H. unfold ndarray_getitem. cbv zeta. expose_lists.
  replace ((k <? - Z.of_nat (length vs)) || (Z.of_nat (length vs) <=? k))%Z
    with true; [done|].
  symmetry. apply orb_true_iff. lia.
Qed.

Lemma ndarray_getitem_error vs k e :
  ndarray_getitem vs k = inl e → e = IndexError array_axis0.
Proof.
  unfold ndarray_getitem.
  repeat case_match; intros [=]; done.
Qed.

(** *** The body of the loop *)

Lemma ridge_body_skip vs edge ax :
  (-1)%Z ∈ edge → ridge_body vs edge ax = (ax, inr tt).
Proof.
  intros H. unfold ridge_body.
  apply list_contains_elem_of in H. by rewrite H.
Qed.

(** A pair of subscripts that both resolve is plotted. *)
Lemma ridge_body_pair vs i j p q ax :
  i ≠ (-1)%Z → j ≠ (-1)%Z →
  ndarray_getitem vs i = inr p → ndarray_getitem vs j = inr q →
  ridge_body vs [i; j] ax = (ax ++ [line_of (p, q)], inr tt).
Proof.
  intros Hi Hj Hp Hq. unfold ridge_body.
  replace (list_contains (-1) [i; j]) with false.
  - unfold bind, lift, plot, list_getitem; simpl. rewrite Hp, Hq. done.
  - symmetry. apply list_contains_not_elem_of.
    rewrite !elem_of_cons, elem_of_nil. intuition congruence.
Qed.

(** The body only appends to the axes, and what it appends and how it ends
    do not depend on the lines already there. *)
Lemma ridge_body_frame vs edge ax :
  ridge_body vs edge ax
  = (ax ++ (ridge_body vs edge []).1, (ridge_body vs edge []).2).
Proof.
  unfold ridge_body, bind, lift, plot, ret.
  repeat case_match; simplify_eq/=; by rewrite ?app_nil_r.
Qed.

(** The body plots at most one line. *)
Lemma ridge_body_length vs edge :
  length (ridge_body vs edge []).1 ≤ 1.
Proof.
  unfold ridge_body, bind, lift, plot, ret.
  repeat case_match; simplify_eq/=; lia.
Qed.

(** After an exception in the body the axes are as before it. *)
Lemma ridge_body_error vs edge ax ax' e :
  ridge_body vs edge ax = (ax', inl e) → ax' = ax.
Proof.
  unfold ridge_body, bind, lift, plot, ret.
  repeat case_match; intros; simplify_eq/=; done.
Qed.

(** *** The loop *)

Lemma ridge_loop_cons vs edge rs ax :
  ridge_loop vs (edge :: rs) ax
  = match ridge_body vs edge ax with
    | (ax', inr _) => ridge_loop vs rs ax'
    | (ax', inl e) => (ax', inl e)
    end.
Proof. reflexivity. Qed.

Lemma ridge_loop_app vs rs1 rs2 ax :
  ridge_loop vs (rs1 ++ rs2) ax
  = match ridge_loop vs rs1 ax with
    | (ax', inr _) => ridge_loop vs rs2 ax'
    | (ax', inl e) => (ax', inl e)
    end.
Proof.
  revert ax. induction rs1 as [|edge rs1 IH]; intros ax; [done|].
  rewrite <- app_comm_cons, !ridge_loop_cons.
  destruct (ridge_body vs edge ax) as [ax' [e|[]]]; [done|]. apply IH.
Qed.

Lemma ridge_loop_frame vs rs ax :
  ridge_loop vs rs ax
  = (ax ++ (ridge_loop vs rs []).1, (ridge_loop vs rs []).2).
Proof.
  revert ax. induction rs as [|edge rs IH]; intros ax.
  - simpl. unfold ret. by rewrite app_nil_r.
  - rewrite !ridge_loop_cons, (ridge_body_frame vs edge ax).
    destruct (ridge_body vs edge []) as [l [e|[]]]; simpl; [done|].
    rewrite (IH (ax ++ l)), (IH l). simpl. by rewrite app_assoc.
Qed.

Lemma ridge_loop_length vs rs :
  length (ridge_loop vs rs []).1 ≤ length rs.
Proof.
  induction rs as [|edge rs IH]; [simpl; lia|].
  rewrite ridge_loop_cons.
  pose proof (ridge_body_length vs edge) as Hb.
  destruct (ridge_body vs edge []) as [l [e|[]]]; simpl in *; [lia|].
  rewrite ridge_loop_frame. simpl. rewrite length_app. lia.
Qed.

End Properties.

(** ** The loop against the specification *)

Section Refinement.

Context {coord : Type}.
Implicit Types (vs : VertexSet coord) (rs : RidgeList) (r : Ridge).
Implicit Types (ax : Axes coord) (p q : Point coord).
Implicit Types (i j k d : Z).

Lemma valid_index_not_sentinel vs k : valid_index vs k → k ≠ sentinel.
Proof. unfold valid_index, sentinel. lia. Qed.

Lemma finite_pair i j : finite [i; j] ↔ i ≠ sentinel ∧ j ≠ sentinel.
Proof.
  unfold finite. rewrite !not_elem_of_cons. split.
  - intros (? & ? & _). split; congruence.
  - intros [? ?]. repeat split; try congruence. apply not_elem_of_nil.
Qed.

Lemma not_finite_sentinel r : ¬ finite r → sentinel ∈ r.
Proof. unfold finite. intros H. by apply dec_stable. Qed.

(** On ridges of the data model the loop is the filter-and-map of the
    specification, from any state of the axes. *)
Lemma ridge_loop_filter_map vs rs :
  Forall (ridge_ok vs) rs →
  ∀ ax, ∃ segs : list (Segment coord),
    ridge_loop vs rs ax = (ax ++ (line_of <$> segs), inr tt)
    ∧ length segs = length (filter finite rs)
    ∧ Forall2 (segment_of_ridge vs) (filter finite rs) segs.
Proof.
  expose_lists. induction 1 as [|r rs Hr _ IH]; intros ax.
  - exists []. simpl. unfold ret. rewrite app_nil_r. repeat split. constructor.
  - destruct Hr as (i & j & -> & Hi & Hj).
    rewrite ridge_loop_cons.
    destruct (decide (finite [i; j])) as [Hfin|Hinf].
    + apply finite_pair in Hfin as [Hi' Hj'].
      destruct Hi as [?|Hi]; [done|]. destruct Hj as [?|Hj]; [done|].
      destruct (ndarray_getitem_valid vs i Hi) as (p & Hp & Hgp).
      destruct (ndarray_getitem_valid vs j Hj) as (q & Hq & Hgq).
      rewrite (ridge_body_pair vs i j p q ax Hi' Hj' Hgp Hgq).
      destruct (IH (ax ++ [line_of (p, q)])) as (segs & Hrun & Hlen & Hall).
      exists ((p, q) :: segs). rewrite Hrun, <- app_assoc.
      rewrite filter_cons_True by (by apply finite_pair).
      repeat split; simpl; [by rewrite Hlen|].
      constructor; [|done]. by exists i, j.
    + rewrite (ridge_body_skip vs [i; j] ax (not_finite_sentinel _ Hinf)).
      rewrite filter_cons_False by done. apply IH.
Qed.

End Refinement.

(** ** The claims of the specification *)

(** C1. On a vertex set and a ridge list of the data model (every ridge a
    pair whose entries are the sentinel or valid indices) the loop ends
    normally and plots exactly one segment per finite ridge and none for
    the others: as many segments as finite ridges, in the order of the
    ridge list with the unbounded ridges left out.  An empty ridge list
    plots nothing. *)
Theorem C1_one_segment_per_finite_ridge :
  ∀ (coord : Type) (vs : VertexSet coord) (ax : Axes coord),
    ridge_loop vs [] ax = (ax, inr tt)
    ∧ ∀ rs : RidgeList, Forall (ridge_ok vs) rs →
        ∃ segs : list (Segment coord),
          ridge_loop vs rs ax = (ax ++ (line_of <$> segs), inr tt)
          ∧ length segs = length (filter finite rs)
          ∧ Forall2 (segment_of_ridge vs) (filter finite rs) segs.
Proof.
  intros coord vs ax. split; [reflexivity|].
  intros rs Hrs. by apply ridge_loop_filter_map.
Qed.

(** C2. A ridge in which the sentinel -1 occurs, at either place, plots
    nothing, whatever its other entry; the loop on the whole ridge list
    behaves as on the list without that ridge, so the segments of the
    ridges around it keep their order. *)
Theorem C2_sentinel_ridge_skipped :
  ∀ (coord : Type) (vs : VertexSet coord) (pre post : RidgeList) (r : Ridge)
    (ax : Axes coord),
    sentinel ∈ r →
    ridge_body vs r ax = (ax, inr tt)
    ∧ ridge_loop vs (pre ++ r :: post) ax = ridge_loop vs (pre ++ post) ax.
Proof.
  intros coord vs pre post r ax Hr. split; [by apply ridge_body_skip|].
  rewrite !ridge_loop_app.
  destruct (ridge_loop vs pre ax) as [ax' [e|[]]]; [done|].
  by rewrite ridge_loop_cons, ridge_body_skip.
Qed.

(** C3. For a finite ridge (i, j) with valid indices the segment plotted
    is (VertexSet[i], VertexSet[j]): the start comes from the first index,
    the end from the second.  This holds for the body of the loop and for
    the ridge at any place of a ridge list whose earlier ridges went
    through. *)
Theorem C3_segment_endpoints :
  ∀ (coord : Type) (vs : VertexSet coord) (i j : Z) (p q : Point coord)
    (ax : Axes coord),
    valid_index vs i → valid_index vs j →
    vs !! Z.to_nat i = Some p → vs !! Z.to_nat j = Some q →
    ridge_body vs [i; j] ax = (ax ++ [line_of (p, q)], inr tt)
    ∧ ∀ (pre : RidgeList) (ax0 : Axes coord),
        ridge_loop vs pre ax0 = (ax, inr tt) →
        ridge_loop vs (pre ++ [[i; j]]) ax0 = (ax ++ [line_of (p, q)], inr tt).
Proof.
  intros coord vs i j p q ax Hi Hj Hp Hq.
  assert (Hbody : ∀ ax', ridge_body vs [i; j] ax' = (ax' ++ [line_of (p, q)], inr tt)).
  { intros ax'.
    destruct (ndarray_getitem_valid vs i Hi) as (p' & Hp' & Hgp).
    destruct (ndarray_getitem_valid vs j Hj) as (q' & Hq' & Hgq).
    expose_lists. simplify_eq.
    apply ridge_body_pair; eauto using valid_index_not_sentinel. }
  split; [apply Hbody|].
  intros pre ax0 Hpre.
  by rewrite ridge_loop_app, Hpre, ridge_loop_cons, Hbody.
Qed.

(** The plot call of a segment determines the segment. *)
Lemma line_of_inj {coord : Type} (s t : Segment coord) :
  line_of s = line_of t → s = t.
Proof.
  destruct s as [[a b] [c d]], t as [[a' b'] [c' d']].
  unfold line_of; simpl. by intros [= -> -> -> ->].
Qed.

(** C6. On VertexSet = [(0,0), (1,0), (1,1)] and RidgeList = [(0,1), (1,2),
    (-1,2)] the loop plots exactly the segments ((0,0),(1,0)) and
    ((1,0),(1,1)); the third ridge, which has the sentinel, plots
    nothing. *)
Theorem C6_scenario_three_ridges :
  ridge_loop [(0, 0); (1, 0); (1, 1)]%Z [[0; 1]; [1; 2]; [-1; 2]]%Z []
  = (line_of <$> [((0, 0), (1, 0)); ((1, 0), (1, 1))]%Z, inr tt)
  ∧ ridge_loop [(0, 0); (1, 0); (1, 1)]%Z [[-1; 2]]%Z [] = ([], inr tt).
Proof. split; reflexivity. Qed.


(** ** Failures *)

Section Failures.

Context {coord : Type}.
Implicit Types (vs : VertexSet coord) (rs : RidgeList) (r : Ridge).
Implicit Types (ax : Axes coord) (p q : Point coord).
Implicit Types (i j k d : Z).

(** An index outside [-n <= k < n] at one of the two places the body
    reads, in a ridge without the sentinel, raises in the array
    subscription. *)
Lemma ridge_body_out_of_range vs r k ax :
  sentinel ∉ r →
  r !! 0 = Some k ∨ r !! 1 = Some k →
  (k < - Z.of_nat (length vs) ∨ Z.of_nat (length vs) ≤ k)%Z →
  ridge_body vs r ax = (ax, inl (IndexError array_axis0)).
Proof.
  intros Hfin Hk Hout. unfold ridge_body.
  apply list_contains_not_elem_of in Hfin. unfold sentinel in Hfin. rewrite Hfin.
  pose proof (ndarray_getitem_out vs k Hout) as Herr.
  unfold bind, lift, list_getitem.
  destruct r as [|i [|j r']]; simpl in *.
  - destruct Hk as [[=]|[=]].
  - destruct Hk as [[= ->]|[=]]. by rewrite Herr.
  - destruct (ndarray_getitem vs i) as [e|p] eqn:Hi.
    + by rewrite (ndarray_getitem_error vs i e Hi).
    + destruct Hk as [[= ->]|[= ->]]; [congruence|]. by rewrite Herr.
Qed.

(** Only a ridge with fewer than two entries can fail in [edge[0]] or
    [edge[1]]. *)
Lemma ridge_body_list_index vs r ax ax' :
  ridge_body vs r ax = (ax', inl (IndexError list_index)) → length r < 2.
Proof.
  unfold ridge_body, bind, lift, plot, ret, list_getitem.
  destruct r as [|i [|j r']]; simpl; [lia..|].
  repeat case_match; intros; simplify_eq/=;
    match goal with
    | H : ndarray_getitem _ _ = inl _ |- _ =>
        apply ndarray_getitem_error in H; discriminate
    end.
Qed.

(** A ridge without the sentinel and with fewer than two entries raises. *)
Lemma ridge_body_short vs r ax :
  sentinel ∉ r → length r < 2 →
  ∃ o, ridge_body vs r ax = (ax, inl (IndexError o)).
Proof.
  intros Hfin Hlen. unfold ridge_body.
  apply list_contains_not_elem_of in Hfin. unfold sentinel in Hfin. rewrite Hfin.
  unfold bind, lift, list_getitem.
  destruct r as [|i [|j r']]; simpl in *; [by eexists| |lia].
  destruct (ndarray_getitem vs i) as [[o]|p]; by eexists.
Qed.

(** Entries after the second are never read. *)
Lemma ridge_body_long vs i j extra ax :
  sentinel ∉ i :: j :: extra →
  ridge_body vs (i :: j :: extra) ax = ridge_body vs [i; j] ax.
Proof.
  intros Hfin. unfold ridge_body.
  assert (sentinel ∉ [i; j]) as Hfin2.
  { revert Hfin. rewrite !not_elem_of_cons. intros (? & ? & _).
    repeat split; try done. apply not_elem_of_nil. }
  apply list_contains_not_elem_of in Hfin, Hfin2. unfold sentinel in *.
  by rewrite Hfin, Hfin2.
Qed.

(** If the body raises on some ridge of the list, so does the loop. *)
Lemma ridge_loop_raises vs rs r :
  r ∈ rs →
  (∀ ax, ∃ o, ridge_body vs r ax = (ax, inl (IndexError o))) →
  ∀ ax, ∃ lines o,
    ridge_loop vs rs ax = (ax ++ lines, inl (IndexError o))
    ∧ (Forall (λ r', 2 ≤ length r') rs → o = array_axis0).
Proof.
  intros Hin Hr. induction rs as [|r' rs IH]; intros ax.
  - by apply elem_of_nil in Hin.
  - rewrite ridge_loop_cons.
    destruct (ridge_body vs r' ax) as [ax' [[o]|[]]] eqn:Hbody.
    + exists [], o. rewrite app_nil_r.
      rewrite (ridge_body_error _ _ _ _ _ Hbody). split; [done|].
      intros Hall. apply Forall_cons in Hall as [Hlen _].
      destruct o; [|done].
      apply ridge_body_list_index in Hbody. lia.
    + apply elem_of_cons in Hin as [->|Hin].
      { destruct (Hr ax) as [o Ho]. congruence. }
      rewrite ridge_body_frame in Hbody. injection Hbody as <- _.
      destruct (IH Hin (ax ++ (ridge_body vs r' []).1)) as (lines & o & Hrun & Ho).
      exists ((ridge_body vs r' []).1 ++ lines), o.
      rewrite Hrun, app_assoc. split; [done|].
      intros Hall. apply Forall_cons in Hall as [_ Hall]. by apply Ho.
Qed.

(** A loop that raised went through a prefix of the list and raised in
    the body of the next ridge, leaving the axes as the prefix left them. *)
Lemma ridge_loop_error_split vs rs ax ax' e :
  ridge_loop vs rs ax = (ax', inl e) →
  ∃ (pre : RidgeList) (r : Ridge) (post : RidgeList),
    rs = pre ++ r :: post
    ∧ ridge_loop vs pre ax = (ax', inr tt)
    ∧ ridge_body vs r ax' = (ax', inl e).
Proof.
  revert ax. induction rs as [|r rs IH]; intros ax; [done|].
  rewrite ridge_loop_cons.
  destruct (ridge_body vs r ax) as [ax1 [e1|[]]] eqn:Hb.
  - intros [= -> ->]. exists [], r, rs.
    pose proof (ridge_body_error _ _ _ _ _ Hb) as ->. done.
  - intros Hrun. destruct (IH ax1 Hrun) as (pre & r' & post & -> & Hpre & Hr').
    exists (r :: pre), r', post. repeat split; [|done].
    by rewrite ridge_loop_cons, Hb.
Qed.

End Failures.

(** With no vertex nothing can be plotted. *)
Lemma ridge_loop_no_vertex {coord : Type} (rs : RidgeList) (ax : Axes coord) :
  (ridge_loop [] rs ax).1 = ax.
Proof.
  revert ax. induction rs as [|r rs IH]; intros ax; [done|].
  rewrite ridge_loop_cons.
  destruct (ridge_body [] r ax) as [ax' [e|[]]] eqn:Hbody.
  - simpl. by apply ridge_body_error in Hbody.
  - rewrite IH. revert Hbody.
    unfold ridge_body, bind, lift, plot, ret.
    repeat case_match; intros; simplify_eq/=; try done;
      match goal with
      | H : ndarray_getitem [] ?k = inr _ |- _ =>
          rewrite (ndarray_getitem_out [] k) in H by (simpl; lia); discriminate
      end.
Qed.

(** C4 (as the loop has it). If the ridge list has a ridge without the
    sentinel, one of whose first two entries k lies outside
    -|VertexSet| <= k < |VertexSet|, the loop fails with IndexError at the
    first ridge whose body raises, the axes holding exactly the lines of
    the ridges before that one; when every ridge has at least two entries
    the error is the one of the array subscription.  A negative index with
    -|VertexSet| <= k < -1 is not rejected: it is resolved from the end of
    the vertex set.  A ridge with the sentinel is skipped without its other
    entries being looked at.  VertexSet = [(0,0)] with RidgeList = [(0,5)]
    fails, and with an empty VertexSet every ridge list that has a ridge
    without the sentinel fails, nothing being plotted. *)
Theorem C4_out_of_range_fails :
  (∀ (coord : Type) (vs : VertexSet coord) (rs : RidgeList) (r : Ridge)
     (k : Z) (ax : Axes coord),
     r ∈ rs → sentinel ∉ r →
     r !! 0 = Some k ∨ r !! 1 = Some k →
     (k < - Z.of_nat (length vs) ∨ Z.of_nat (length vs) ≤ k)%Z →
     ∃ (pre : RidgeList) (r' : Ridge) (post : RidgeList)
       (lines : list (Line2D coord)) (o : index_origin),
       rs = pre ++ r' :: post
       ∧ ridge_loop vs pre ax = (ax ++ lines, inr tt)
       ∧ ridge_body vs r' (ax ++ lines) = (ax ++ lines, inl (IndexError o))
       ∧ ridge_loop vs rs ax = (ax ++ lines, inl (IndexError o))
       ∧ (Forall (λ r', 2 ≤ length r') rs → o = array_axis0))
  ∧ (∀ (coord : Type) (vs : VertexSet coord) (k : Z),
       (- Z.of_nat (length vs) ≤ k < -1)%Z →
       ∃ p : Point coord,
         vs !! Z.to_nat (Z.of_nat (length vs) + k) = Some p
         ∧ ∀ (j : Z) (q : Point coord) (ax : Axes coord),
             j ≠ sentinel → ndarray_getitem vs j = inr q →
             ridge_loop vs [[k; j]] ax = (ax ++ [line_of (p, q)], inr tt)
             ∧ ridge_loop vs [[j; k]] ax = (ax ++ [line_of (q, p)], inr tt))
  ∧ (∀ (coord : Type) (vs : VertexSet coord) (r : Ridge) (post : RidgeList)
       (ax : Axes coord),
       sentinel ∈ r →
       ridge_body vs r ax = (ax, inr tt)
       ∧ ridge_loop vs (r :: post) ax = ridge_loop vs post ax)
  ∧ ridge_loop [(0, 0)]%Z [[0; 5]]%Z [] = ([], inl (IndexError array_axis0))
  ∧ (∀ (coord : Type) (rs : RidgeList) (r : Ridge) (ax : Axes coord),
       r ∈ rs → sentinel ∉ r →
       ∃ o,
         ridge_loop (@nil (Point coord)) rs ax = (ax, inl (IndexError o))
         ∧ (Forall (λ r', 2 ≤ length r') rs → o = array_axis0)).
Proof.
  split; [|split; [|split; [|split; [reflexivity|]]]].
  - intros coord vs rs r k ax Hin Hfin Hk Hout.
    destruct (ridge_loop_raises vs rs r Hin) with (ax := ax)
      as (lines & o & Hrun & Ho).
    { intros ax'. exists array_axis0.
      by apply (ridge_body_out_of_range vs r k). }
    destruct (ridge_loop_error_split vs rs ax _ _ Hrun)
      as (pre & r' & post & Hrs & Hpre & Hr').
    by exists pre, r', post, lines, o.
  - intros coord vs k Hk.
    destruct (ndarray_getitem_negative vs k) as (p & Hp & Hgp); [lia|].
    exists p. split; [done|]. intros j q ax Hj Hgq.
    assert (k ≠ (-1)%Z) as Hk1 by lia.
    rewrite !ridge_loop_cons.
    rewrite (ridge_body_pair vs k j p q ax Hk1 Hj Hgp Hgq).
    by rewrite (ridge_body_pair vs j k q p ax Hj Hk1 Hgq Hgp).
  - intros coord vs r post ax Hs.
    rewrite ridge_loop_cons, (ridge_body_skip vs r ax Hs). done.
  - intros coord rs r ax Hin Hfin.
    assert (∀ ax', ∃ o, ridge_body (@nil (Point coord)) r ax'
                        = (ax', inl (IndexError o))) as Hbody.
    { intros ax'. destruct r as [|k r'].
      - apply ridge_body_short; [done|simpl; lia].
      - exists array_axis0. apply (ridge_body_out_of_range [] (k :: r') k);
          [done|by left|simpl; lia]. }
    destruct (ridge_loop_raises [] rs r Hin Hbody ax) as (lines & o & Hrun & Ho).
    exists o. split; [|done].
    pose proof (ridge_loop_no_vertex rs ax) as Hax.
    rewrite Hrun in Hax. simpl in Hax. by rewrite Hrun, Hax.
Qed.

(** C5 (as the loop has it). The cardinality of a ridge is not checked.  A
    ridge with the sentinel is skipped whatever its cardinality; a ridge
    without the sentinel and with fewer than two entries fails at once with
    IndexError and ends the loop there; a ridge without the sentinel and
    with more than two entries is handled as the ridge of its first two
    entries. *)
Theorem C5_ridge_cardinality :
  ∀ (coord : Type) (vs : VertexSet coord) (r : Ridge) (ax : Axes coord),
    (sentinel ∈ r → ridge_body vs r ax = (ax, inr tt))
    ∧ (sentinel ∉ r → length r < 2 →
       ∃ o, ridge_body vs r ax = (ax, inl (IndexError o))
            ∧ ∀ post : RidgeList,
                ridge_loop vs (r :: post) ax = (ax, inl (IndexError o)))
    ∧ (sentinel ∉ r → 2 < length r →
       ∃ i j extra, r = i :: j :: extra
                    ∧ ridge_body vs r ax = ridge_body vs [i; j] ax).
Proof.
  intros coord vs r ax. split; [apply ridge_body_skip|split].
  - intros Hfin Hlen.
    destruct (ridge_body_short vs r ax Hfin Hlen) as [o Ho].
    exists o. split; [done|]. intros post. by rewrite ridge_loop_cons, Ho.
  - intros Hfin Hlen. destruct r as [|i [|j extra]]; simpl in Hlen; [lia..|].
    exists i, j, extra. split; [done|]. by apply ridge_body_long.
Qed.

(** C8. What the loop plots and how it ends are a function of the vertex
    set and the ridge list alone: from any state of the axes it appends
    the same lines and ends the same way, it leaves the lines already
    there as they were, and a second run right after the first appends the
    same lines again. *)
Theorem C8_deterministic :
  ∀ (coord : Type) (vs : VertexSet coord) (rs : RidgeList),
    ∃ (lines : list (Line2D coord)) (o : exn + unit),
      (∀ ax : Axes coord, ridge_loop vs rs ax = (ax ++ lines, o))
      ∧ (∀ ax : Axes coord,
           ridge_loop vs rs (ridge_loop vs rs ax).1 = ((ax ++ lines) ++ lines, o)).
Proof.
  intros coord vs rs.
  exists (ridge_loop vs rs []).1, (ridge_loop vs rs []).2.
  assert (∀ ax, ridge_loop vs rs ax
                = (ax ++ (ridge_loop vs rs []).1, (ridge_loop vs rs []).2)) as Hframe
    by apply ridge_loop_frame.
  split; [done|].
  intros ax. by rewrite (Hframe ax), Hframe at 1.
Qed.

(** C9. The loop is one pass over the ridge list: on every input it
    returns, having appended at most one line per ridge. *)
Theorem C9_single_pass_terminates :
  ∀ (coord : Type) (vs : VertexSet coord) (rs : RidgeList) (ax : Axes coord),
    ∃ (lines : list (Line2D coord)) (o : exn + unit),
      ridge_loop vs rs ax = (ax ++ lines, o) ∧ length lines ≤ length rs.
Proof.
  intros coord vs rs ax.
  exists (ridge_loop vs rs []).1, (ridge_loop vs rs []).2.
  split; [apply ridge_loop_frame|apply ridge_loop_length].
Qed.

(** C10 (as the loop has it). For a vertex set of size n >= 1 and a
    negative index d other than -1 with -n <= d < 0, d is not taken for
    the sentinel and is resolved from the end, to VertexSet[n + d]; a ridge
    of two entries with d at one place, whose other entry is not the
    sentinel and can itself be resolved, is neither failed nor skipped: its
    segment has VertexSet[n + d] at the place of d. *)
Theorem C10_negative_index_wraps :
  ∀ (coord : Type) (vs : VertexSet coord) (d : Z),
    1 ≤ length vs → d ≠ sentinel →
    (- Z.of_nat (length vs) ≤ d < 0)%Z →
    ∃ p : Point coord,
      vs !! Z.to_nat (Z.of_nat (length vs) + d) = Some p
      ∧ ndarray_getitem vs d = inr p
      ∧ ∀ (k : Z) (q : Point coord) (ax : Axes coord),
          k ≠ sentinel → ndarray_getitem vs k = inr q →
          ridge_body vs [d; k] ax = (ax ++ [line_of (p, q)], inr tt)
          ∧ ridge_body vs [k; d] ax = (ax ++ [line_of (q, p)], inr tt).
Proof.
  intros coord vs d _ Hd Hrange.
  destruct (ndarray_getitem_negative vs d Hrange) as (p & Hp & Hgp).
  exists p. repeat split; try done; by apply ridge_body_pair.
Qed.

(** ** Concrete instances *)

(** C1 at the three-ridge scenario. *)
Lemma C1_witness :
  Forall (ridge_ok [(0, 0); (1, 0); (1, 1)]%Z) [[0; 1]; [1; 2]; [-1; 2]]%Z
  ∧ ∃ segs : list (Segment Z),
      ridge_loop [(0, 0); (1, 0); (1, 1)]%Z [[0; 1]; [1; 2]; [-1; 2]]%Z []
      = ([] ++ (line_of <$> segs), inr tt)
      ∧ length segs = length (filter finite [[0; 1]; [1; 2]; [-1; 2]]%Z)
      ∧ Forall2 (segment_of_ridge [(0, 0); (1, 0); (1, 1)]%Z)
          (filter finite [[0; 1]; [1; 2]; [-1; 2]]%Z) segs.
Proof.
  assert (Forall (ridge_ok [(0, 0); (1, 0); (1, 1)]%Z)
            [[0; 1]; [1; 2]; [-1; 2]]%Z) as Hok.
  { repeat constructor.
    - exists 0%Z, 1%Z. unfold valid_index; simpl. repeat split; right; lia.
    - exists 1%Z, 2%Z. unfold valid_index; simpl. repeat split; right; lia.
    - exists (-1)%Z, 2%Z. unfold valid_index; simpl.
      repeat split; [by left|right; lia]. }
  split; [exact Hok|].
  exact (proj2 (C1_one_segment_per_finite_ridge Z
                  [(0, 0); (1, 0); (1, 1)]%Z []) _ Hok).
Defined.

(** C2 at the three-ridge scenario with the unbounded ridge in the
    middle. *)
Lemma C2_witness :
  sentinel ∈ [-1; 2]%Z
  ∧ ridge_body [(0, 0); (1, 0); (1, 1)]%Z [-1; 2]%Z [] = ([], inr tt)
  ∧ ridge_loop [(0, 0); (1, 0); (1, 1)]%Z ([[0; 1]] ++ [-1; 2] :: [[1; 2]])%Z []
    = ridge_loop [(0, 0); (1, 0); (1, 1)]%Z ([[0; 1]] ++ [[1; 2]])%Z [].
Proof.
  assert (sentinel ∈ [-1; 2]%Z) as Hin by (unfold sentinel; left).
  split; [exact Hin|].
  exact (C2_sentinel_ridge_skipped Z [(0, 0); (1, 0); (1, 1)]%Z
           [[0; 1]]%Z [[1; 2]]%Z [-1; 2]%Z [] Hin).
Defined.

(** C3 at the ridge (2, 0) of a three-vertex set. *)
Lemma C3_witness :
  ridge_body [(0, 0); (1, 0); (1, 1)]%Z [2; 0]%Z []
  = ([] ++ [line_of ((1, 1), (0, 0))%Z], inr tt).
Proof.
  refine (proj1 (C3_segment_endpoints Z [(0, 0); (1, 0); (1, 1)]%Z 2 0
                   (1, 1)%Z (0, 0)%Z [] _ _ _ _)).
  - unfold valid_index; simpl; lia.
  - unfold valid_index; simpl; lia.
  - reflexivity.
  - reflexivity.
Defined.

(** C4 at VertexSet = [(0,0)] with RidgeList = [(0,0), (0,5), (0,0)], at
    the index -2 of a two-vertex set, at the ridge (-1, 7), and at an empty
    vertex set. *)
Lemma C4_witness :
  (∃ (pre : RidgeList) (r' : Ridge) (post : RidgeList) (lines : list (Line2D Z))
     (o : index_origin),
     [[0; 0]; [0; 5]; [0; 0]]%Z = pre ++ r' :: post
     ∧ ridge_loop [(0, 0)]%Z pre [] = ([] ++ lines, inr tt)
     ∧ ridge_body [(0, 0)]%Z r' ([] ++ lines)
       = ([] ++ lines, inl (IndexError o))
     ∧ ridge_loop [(0, 0)]%Z [[0; 0]; [0; 5]; [0; 0]]%Z []
       = ([] ++ lines, inl (IndexError o))
     ∧ (Forall (λ r', 2 ≤ length r') [[0; 0]; [0; 5]; [0; 0]]%Z
        → o = array_axis0))
  ∧ (∃ p : Point Z,
       [(0, 0); (1, 1)]%Z
         !! Z.to_nat (Z.of_nat (length [(0, 0); (1, 1)]%Z) + -2) = Some p
       ∧ ∀ (j : Z) (q : Point Z) (ax : Axes Z),
           j ≠ sentinel → ndarray_getitem [(0, 0); (1, 1)]%Z j = inr q →
           ridge_loop [(0, 0); (1, 1)]%Z [[-2; j]]%Z ax
           = (ax ++ [line_of (p, q)], inr tt)
           ∧ ridge_loop [(0, 0); (1, 1)]%Z [[j; -2]]%Z ax
             = (ax ++ [line_of (q, p)], inr tt))
  ∧ (ridge_body [(0, 0)]%Z [-1; 7]%Z [] = ([], inr tt)
     ∧ ridge_loop [(0, 0)]%Z ([-1; 7] :: [[0; 0]])%Z []
       = ridge_loop [(0, 0)]%Z [[0; 0]]%Z [])
  ∧ (∃ o,
       ridge_loop (@nil (Point Z)) [[-1; 0]; [3; 4]]%Z []
       = ([], inl (IndexError o))
       ∧ (Forall (λ r', 2 ≤ length r') [[-1; 0]; [3; 4]]%Z → o = array_axis0)).
Proof.
  split; [|split; [|split]].
  - refine (proj1 C4_out_of_range_fails Z [(0, 0)]%Z
              [[0; 0]; [0; 5]; [0; 0]]%Z [0; 5]%Z 5%Z [] _ _ _ _).
    + right; left.
    + unfold sentinel. rewrite !not_elem_of_cons.
      repeat split; [lia..|apply not_elem_of_nil].
    + by right.
    + simpl. lia.
  - refine (proj1 (proj2 C4_out_of_range_fails) Z [(0, 0); (1, 1)]%Z (-2)%Z _).
    simpl. lia.
  - refine (proj1 (proj2 (proj2 C4_out_of_range_fails)) Z [(0, 0)]%Z
              [-1; 7]%Z [[0; 0]]%Z [] _).
    unfold sentinel. left.
  - refine (proj2 (proj2 (proj2 (proj2 C4_out_of_range_fails))) Z
              [[-1; 0]; [3; 4]]%Z [3; 4]%Z [] _ _).
    + right; left.
    + unfold sentinel. rewrite !not_elem_of_cons.
      repeat split; [lia..|apply not_elem_of_nil].
Defined.

(** The loop accepts an index the data model excludes: -2 is resolved from
    the end of a two-vertex set; and a ridge with the sentinel is skipped
    over an empty vertex set although its other entry is no index. *)
Lemma C4_counterexample :
  (-2)%Z ∈ [0; -2]%Z
  ∧ (-2)%Z ≠ sentinel
  ∧ ¬ valid_index [(0, 0); (1, 1)]%Z (-2)
  ∧ ridge_loop [(0, 0); (1, 1)]%Z [[0; -2]]%Z []
    = ([line_of ((0, 0), (0, 0))%Z], inr tt)
  ∧ ridge_loop (@nil (Point Z)) [[-1; 3]]%Z [] = ([], inr tt).
Proof.
  repeat split.
  - right; left.
  - unfold sentinel. lia.
  - unfold valid_index. simpl. lia.
Qed.

(** C5 at a ridge with the sentinel alone, at an empty ridge and at a ridge
    of three entries. *)
Lemma C5_witness :
  ridge_body [(0, 0)]%Z [-1]%Z [] = ([], inr tt)
  ∧ (∃ o, ridge_body [(0, 0)]%Z [] [] = ([], inl (IndexError o))
          ∧ ∀ post : RidgeList,
              ridge_loop [(0, 0)]%Z ([] :: post) [] = ([], inl (IndexError o)))
  ∧ (∃ i j extra, [0; 0; 7]%Z = i :: j :: extra
                  ∧ ridge_body [(0, 0)]%Z [0; 0; 7]%Z []
                    = ridge_body [(0, 0)]%Z [i; j] []).
Proof.
  split; [|split].
  - apply (proj1 (C5_ridge_cardinality Z [(0, 0)]%Z [-1]%Z [])).
    unfold sentinel. left.
  - apply (proj1 (proj2 (C5_ridge_cardinality Z [(0, 0)]%Z [] []))).
    + apply not_elem_of_nil.
    + simpl. lia.
  - apply (proj2 (proj2 (C5_ridge_cardinality Z [(0, 0)]%Z [0; 0; 7]%Z []))).
    + unfold sentinel. rewrite !not_elem_of_cons.
      repeat split; [lia..|apply not_elem_of_nil].
    + simpl. lia.
Defined.

(** A ridge of three entries is plotted, and a ridge of one entry, the
    sentinel, is skipped: neither fails. *)
Lemma C5_counterexample :
  length [0; 0; 0]%Z ≠ 2
  ∧ ridge_loop [(0, 0)]%Z [[0; 0; 0]]%Z []
    = ([line_of ((0, 0), (0, 0))%Z], inr tt)
  ∧ length [-1]%Z ≠ 2
  ∧ ridge_loop [(0, 0)]%Z [[-1]]%Z [] = ([], inr tt).
Proof. repeat split; simpl; lia. Qed.


(** C10 at the index -2 of a two-vertex set. *)
Lemma C10_witness :
  ∃ p : Point Z,
    [(0, 0); (1, 1)]%Z !! Z.to_nat (Z.of_nat (length [(0, 0); (1, 1)]%Z) + -2) = Some p
    ∧ ndarray_getitem [(0, 0); (1, 1)]%Z (-2) = inr p
    ∧ ∀ (k : Z) (q : Point Z) (ax : Axes Z),
        k ≠ sentinel → ndarray_getitem [(0, 0); (1, 1)]%Z k = inr q →
        ridge_body [(0, 0); (1, 1)]%Z [-2; k]%Z ax = (ax ++ [line_of (p, q)], inr tt)
        ∧ ridge_body [(0, 0); (1, 1)]%Z [k; -2]%Z ax = (ax ++ [line_of (q, p)], inr tt).
Proof.
  refine (C10_negative_index_wraps Z [(0, 0); (1, 1)]%Z (-2)%Z _ _ _).
  - simpl. lia.
  - unfold sentinel. lia.
  - simpl. lia.
Defined.

(** A ridge with a negative index in range is skipped all the same when
    its other entry is the sentinel, and fails when its other entry is out
    of range. *)
Lemma C10_counterexample :
  (-2)%Z ∈ [-2; -1]%Z
  ∧ (-2)%Z ≠ (-1)%Z
  ∧ (- Z.of_nat (length [(0, 0); (1, 1)]%Z) ≤ -2 < 0)%Z
  ∧ ridge_loop [(0, 0); (1, 1)]%Z [[-2; -1]]%Z [] = ([], inr tt)
  ∧ ridge_loop [(0, 0); (1, 1)]%Z [[-2; 9]]%Z []
    = ([], inl (IndexError array_axis0)).
Proof.
  repeat split; simpl; try lia. left.
Qed.

(** ** Which ridges the body accepts *)

Section Acceptance.

Context {coord : Type}.
Implicit Types (vs : VertexSet coord) (rs : RidgeList) (r : Ridge).
Implicit Types (ax : Axes coord) (p q : Point coord).
Implicit Types (i j k : Z).

Lemma ndarray_getitem_in_range vs k :
  in_range vs k → ∃ p, p ∈ vs ∧ ndarray_getitem vs k = inr p.
Proof.
  intros [Hlo Hhi]. destruct (decide (0 ≤ k)%Z) as [Hk|Hk].
  - destruct (ndarray_getitem_valid vs k) as (p & Hp & Hg);
      [unfold valid_index; lia|].
    exists p. split; [|done]. expose_lists. by eapply list_elem_of_lookup_2.
  - destruct (ndarray_getitem_negative vs k) as (p & Hp & Hg); [lia|].
    exists p. split; [|done]. expose_lists. by eapply list_elem_of_lookup_2.
Qed.

Lemma ndarray_getitem_inr vs k p :
  ndarray_getitem vs k = inr p → in_range vs k ∧ p ∈ vs.
Proof.
  intros Hg.
  destruct (decide (k < - Z.of_nat (length vs) ∨ Z.of_nat (length vs) ≤ k)%Z)
    as [Hout|Hin].
  - rewrite (ndarray_getitem_out vs k Hout) in Hg. discriminate.
  - assert (in_range vs k) as Hr by (unfold in_range; lia).
    split; [done|].
    destruct (ndarray_getitem_in_range vs k Hr) as (p' & Hp' & Hg').
    congruence.
Qed.

(** What a run of the body that ends normally has done. *)
Lemma ridge_body_inv vs r ax ax' :
  ridge_body vs r ax = (ax', inr tt) →
  (sentinel ∈ r ∧ ax' = ax)
  ∨ ((sentinel ∉ r)
     ∧ ∃ i j extra p q,
         r = i :: j :: extra
         ∧ ndarray_getitem vs i = inr p ∧ ndarray_getitem vs j = inr q
         ∧ ax' = ax ++ [line_of (p, q)]).
Proof.
  unfold ridge_body. destruct (list_contains (-1) r) eqn:Hc.
  - intros [= <-]. left. split; [by apply list_contains_elem_of|done].
  - intros H. right. split; [by apply list_contains_not_elem_of|].
    unfold bind, lift, plot, list_getitem in H.
    destruct r as [|i [|j extra]]; simpl in H.
    + discriminate.
    + destruct (ndarray_getitem vs i); discriminate.
    + destruct (ndarray_getitem vs i) as [|p] eqn:Hi; [discriminate|].
      destruct (ndarray_getitem vs j) as [|q] eqn:Hj; [discriminate|].
      injection H as <-. by exists i, j, extra, p, q.
Qed.

Lemma ridge_body_normal_accepted vs r ax ax' :
  ridge_body vs r ax = (ax', inr tt) → ridge_accepted vs r.
Proof.
  intros H. apply ridge_body_inv in H as [[Hs _]|[_ H]]; [by left|].
  destruct H as (i & j & extra & p & q & -> & Hi & Hj & _).
  right. exists i, j, extra.
  apply ndarray_getitem_inr in Hi as [Hi _].
  apply ndarray_getitem_inr in Hj as [Hj _]. done.
Qed.

Lemma ridge_body_accepted vs r ax :
  ridge_accepted vs r → ∃ ax', ridge_body vs r ax = (ax', inr tt).
Proof.
  intros Hacc. destruct (decide (sentinel ∈ r)) as [Hs|Hs].
  { exists ax. by apply ridge_body_skip. }
  destruct Hacc as [?|(i & j & extra & -> & Hi & Hj)]; [done|].
  destruct (ndarray_getitem_in_range vs i Hi) as (p & _ & Hp).
  destruct (ndarray_getitem_in_range vs j Hj) as (q & _ & Hq).
  exists (ax ++ [line_of (p, q)]).
  rewrite ridge_body_long by done.
  apply ridge_body_pair; try done.
  - intros ->. apply Hs. unfold sentinel. left.
  - intros ->. apply Hs. unfold sentinel. right; left.
Qed.

Lemma ridge_body_rejected vs r ax :
  ¬ ridge_accepted vs r → ∃ o, ridge_body vs r ax = (ax, inl (IndexError o)).
Proof.
  intros Hrej. destruct (ridge_body vs r ax) as [ax' [[o]|[]]] eqn:Hb.
  - exists o. by rewrite (ridge_body_error _ _ _ _ _ Hb).
  - destruct Hrej. by eapply ridge_body_normal_accepted.
Qed.

End Acceptance.

(** ** The loop on arbitrary ridge lists *)

Section Loop.

Context {coord : Type}.
Implicit Types (vs : VertexSet coord) (rs : RidgeList) (r : Ridge).
Implicit Types (ax : Axes coord) (p q : Point coord).
Implicit Types (i j k : Z).

Lemma ridge_loop_normal_accepted vs rs ax :
  (ridge_loop vs rs ax).2 = inr tt ↔ Forall (ridge_accepted vs) rs.
Proof.
  revert ax. induction rs as [|r rs IH]; intros ax.
  - split; [constructor|done].
  - rewrite ridge_loop_cons, Forall_cons.
    destruct (ridge_body vs r ax) as [ax' [[o]|[]]] eqn:Hb.
    + split; [done|]. intros [Hacc _].
      destruct (ridge_body_accepted vs r ax Hacc) as [ax'' Hn]. congruence.
    + rewrite IH. apply ridge_body_normal_accepted in Hb. tauto.
Qed.

(** The lines of a run are segments between vertices, one per ridge
    without the sentinel that the run went through. *)
Lemma ridge_loop_segments vs rs ax :
  ∃ segs : list (Segment coord),
    (ridge_loop vs rs ax).1 = ax ++ (line_of <$> segs)
    ∧ Forall (λ s, s.1 ∈ vs ∧ s.2 ∈ vs) segs
    ∧ length segs ≤ length (filter finite rs)
    ∧ ((ridge_loop vs rs ax).2 = inr tt →
       length segs = length (filter finite rs)).
Proof.
  expose_lists. revert ax. induction rs as [|r rs IH]; intros ax.
  - exists []. simpl. rewrite app_nil_r. repeat split; [constructor|lia].
  - rewrite ridge_loop_cons.
    destruct (ridge_body vs r ax) as [ax' [[o]|[]]] eqn:Hb.
    + exists []. rewrite (ridge_body_error _ _ _ _ _ Hb). simpl.
      rewrite app_nil_r. repeat split; [constructor|lia|done].
    + apply ridge_body_inv in Hb as [[Hs ->]|[Hs Hb]].
      * rewrite filter_cons_False by (unfold finite; tauto). apply IH.
      * destruct Hb as (i & j & extra & p & q & -> & Hi & Hj & ->).
        destruct (IH (ax ++ [line_of (p, q)])) as (segs & Hl & Hin & Hle & Heq).
        exists ((p, q) :: segs). rewrite Hl, <- app_assoc.
        rewrite filter_cons_True by done.
        apply ndarray_getitem_inr in Hi as [_ Hi].
        apply ndarray_getitem_inr in Hj as [_ Hj].
        repeat split; simpl; [by constructor|lia|]. intros H. by rewrite Heq.
Qed.

Lemma ridge_loop_filter vs rs ax :
  ridge_loop vs (filter finite rs) ax = ridge_loop vs rs ax.
Proof.
  expose_lists. revert ax. induction rs as [|r rs IH]; intros ax; [done|].
  destruct (decide (finite r)) as [Hfin|Hinf].
  - rewrite filter_cons_True by done. rewrite !ridge_loop_cons.
    destruct (ridge_body vs r ax) as [ax' [e|[]]]; [done|apply IH].
  - rewrite filter_cons_False by done.
    rewrite ridge_loop_cons, ridge_body_skip by (by apply not_finite_sentinel).
    apply IH.
Qed.

Lemma ridge_body_take vs r ax :
  finite r → ridge_body vs (take 2 r) ax = ridge_body vs r ax.
Proof.
  intros Hfin. destruct r as [|i [|j extra]]; [done..|].
  symmetry. by apply ridge_body_long.
Qed.

End Loop.

Section LoopOrder.

Context {coord : Type}.
Implicit Types (vs : VertexSet coord) (rs : RidgeList) (r : Ridge).
Implicit Types (ax : Axes coord) (p q : Point coord).

(** On accepted ridges the loop appends, ridge after ridge, what the body
    plots for the ridge on empty axes. *)
Lemma ridge_loop_bind vs rs ax :
  Forall (ridge_accepted vs) rs →
  ridge_loop vs rs ax
  = (ax ++ mbind (M := list) (λ r, (ridge_body vs r []).1) rs, inr tt).
Proof.
  expose_lists. intros Hall. revert ax.
  induction Hall as [|r rs Hr _ IH]; intros ax.
  - simpl. unfold ret. by rewrite app_nil_r.
  - rewrite ridge_loop_cons, bind_cons, (ridge_body_frame vs r ax).
    destruct (ridge_body_accepted vs r [] Hr) as [l Hl]. rewrite Hl. simpl.
    by rewrite IH, app_assoc.
Qed.

End LoopOrder.

Section Diagnosis.

Context {coord : Type}.
Implicit Types (vs : VertexSet coord) (rs : RidgeList) (r : Ridge).
Implicit Types (ax : Axes coord).

Lemma ridge_body_fault vs r ax ax' o :
  ridge_body vs r ax = (ax', inl (IndexError o)) →
  (sentinel ∉ r) ∧ ridge_fault vs r o.
Proof.
  intros Hb. split.
  { intros Hs. rewrite ridge_body_skip in Hb by done. discriminate. }
  destruct o; simpl; [by eapply ridge_body_list_index|].
  assert (∀ k e, ndarray_getitem vs k = inl e → ¬ in_range vs k) as Hout.
  { intros k e Hk Hr.
    destruct (ndarray_getitem_in_range vs k Hr) as (p & _ & Hp). congruence. }
  revert Hb. unfold ridge_body, bind, lift, plot, ret, list_getitem.
  destruct (list_contains (-1) r); [done|].
  destruct r as [|i [|j extra]]; simpl; [done| |].
  - destruct (ndarray_getitem vs i) as [e|p] eqn:Hi; [|done].
    intros _. exists i. split; [by left|by eapply Hout].
  - destruct (ndarray_getitem vs i) as [e|p] eqn:Hi.
    { intros _. exists i. split; [by left|by eapply Hout]. }
    destruct (ndarray_getitem vs j) as [e|q] eqn:Hj; [|done].
    intros _. exists j. split; [by right|by eapply Hout].
Qed.

End Diagnosis.

(** ** The cell *)

Lemma manual_figure_cases {coord : Type} (tree_positions : VertexSet coord)
    (vor : Voronoi coord) :
  manual_figure tree_positions vor
  = match ridge_loop (vertices vor) (ridge_vertices vor) [] with
    | (lines, inl e) =>
        (mkAxesState
           [mkPathCollection (column0 (vertices vor)) (column1 (vertices vor))
              "orange"]
           lines None None, inl e)
    | (lines, inr _) =>
        (mkAxesState
           [mkPathCollection (column0 (vertices vor)) (column1 (vertices vor))
              "orange";
            mkPathCollection (column0 tree_positions) (column1 tree_positions)
              "blue"]
           lines (Some (-3, 3)%Z) (Some (-3, 3)%Z), inr tt)
    end.
Proof.
  unfold manual_figure, plot_ridges, scatter, set_xlim, set_ylim, add_subplot.
  simpl. by destruct (ridge_loop (vertices vor) (ridge_vertices vor) [])
    as [lines [e|[]]].
Qed.

(** A vertex is one of the markers scattered for the vertex set. *)
Lemma vertex_marker {coord : Type} (vs : VertexSet coord) (p : Point coord) :
  p ∈ vs →
  ∃ a : nat, column0 vs !! a = Some p.1 ∧ column1 vs !! a = Some p.2.
Proof.
  expose_lists. intros Hp. apply list_elem_of_lookup in Hp as [a Ha].
  exists a. unfold column0, column1, Point in *.
  by rewrite !list_lookup_fmap, Ha.
Qed.

(** ** Further properties of the loop and of the cell *)

(** X1. The loop ends normally exactly when every ridge is accepted: it has
    the sentinel somewhere, or it has at least two entries and its first
    two lie in -n <= k < n. *)
Theorem X1_loop_normal_iff_accepted :
  ∀ (coord : Type) (vs : VertexSet coord) (rs : RidgeList) (ax : Axes coord),
    (ridge_loop vs rs ax).2 = inr tt ↔ Forall (ridge_accepted vs) rs.
Proof. intros. apply ridge_loop_normal_accepted. Qed.

(** X2. The first rejected ridge ends the loop: the axes keep the lines of
    the ridges before it, and the outcome does not depend on the ridges
    after it, which are never looked at. *)
Theorem X2_loop_stops_at_first_rejected :
  ∀ (coord : Type) (vs : VertexSet coord) (pre : RidgeList) (r : Ridge)
    (ax ax' : Axes coord),
    ridge_loop vs pre ax = (ax', inr tt) → ¬ ridge_accepted vs r →
    ∃ o, ∀ post : RidgeList,
      ridge_loop vs (pre ++ r :: post) ax = (ax', inl (IndexError o)).
Proof.
  intros coord vs pre r ax ax' Hpre Hrej.
  destruct (ridge_body_rejected vs r ax' Hrej) as [o Ho].
  exists o. intros post.
  by rewrite ridge_loop_app, Hpre, ridge_loop_cons, Ho.
Qed.

(** X3. Whatever the outcome, the loop only appends, and every line it
    appends is a segment between two points of the vertex set; it appends
    at most as many lines as there are ridges without the sentinel. *)
Theorem X3_lines_join_vertices :
  ∀ (coord : Type) (vs : VertexSet coord) (rs : RidgeList) (ax : Axes coord),
    ∃ segs : list (Segment coord),
      (ridge_loop vs rs ax).1 = ax ++ (line_of <$> segs)
      ∧ Forall (λ s, s.1 ∈ vs ∧ s.2 ∈ vs) segs
      ∧ length segs ≤ length (filter finite rs).
Proof.
  intros coord vs rs ax.
  destruct (ridge_loop_segments vs rs ax) as (segs & Hl & Hin & Hle & _).
  by exists segs.
Qed.

(** X4. When the loop ends normally, on any ridge list, it has appended
    exactly one line per ridge without the sentinel. *)
Theorem X4_line_count_on_success :
  ∀ (coord : Type) (vs : VertexSet coord) (rs : RidgeList) (ax : Axes coord),
    (ridge_loop vs rs ax).2 = inr tt →
    length (ridge_loop vs rs ax).1 = length ax + length (filter finite rs).
Proof.
  intros coord vs rs ax Hok.
  destruct (ridge_loop_segments vs rs ax) as (segs & Hl & _ & _ & Heq).
  rewrite Hl, length_app, length_fmap, (Heq Hok). done.
Qed.

(** X5. The loop over a concatenation is the loop over the first list
    followed, unless it raised, by the loop over the second. *)
Theorem X5_loop_append_is_sequence :
  ∀ (coord : Type) (vs : VertexSet coord) (rs1 rs2 : RidgeList)
    (ax : Axes coord),
    ridge_loop vs (rs1 ++ rs2) ax
    = bind (ridge_loop vs rs1) (λ _, ridge_loop vs rs2) ax.
Proof. intros. unfold bind. apply ridge_loop_app. Qed.

(** X6. Removing beforehand all the ridges with the sentinel changes
    neither the lines nor the outcome. *)
Theorem X6_loop_ignores_sentinel_ridges :
  ∀ (coord : Type) (vs : VertexSet coord) (rs : RidgeList) (ax : Axes coord),
    ridge_loop vs (filter finite rs) ax = ridge_loop vs rs ax.
Proof. intros. apply ridge_loop_filter. Qed.

(** X7. Of a ridge without the sentinel only the first two entries count:
    cutting the kept ridges to two entries changes nothing.  The sentinel
    is looked for in the whole ridge, though: the ridge [0, 1, -1] is
    skipped, while its first two entries alone are plotted. *)
Theorem X7_loop_reads_first_two_entries :
  (∀ (coord : Type) (vs : VertexSet coord) (rs : RidgeList) (ax : Axes coord),
     ridge_loop vs (take 2 <$> filter finite rs) ax = ridge_loop vs rs ax)
  ∧ ridge_loop [(0, 0); (1, 1)]%Z [[0; 1; -1]]%Z [] = ([], inr tt)
  ∧ ridge_loop [(0, 0); (1, 1)]%Z [take 2 [0; 1; -1]]%Z []
    = ([line_of ((0, 0), (1, 1))%Z], inr tt).
Proof.
  split; [|split; reflexivity]. intros coord vs rs ax.
  rewrite <- (ridge_loop_filter vs rs ax).
  assert (Forall finite (filter finite rs)) as Hall.
  { expose_lists. apply Forall_forall. intros r Hr.
    by apply list_elem_of_filter in Hr as [? _]. }
  revert ax. induction Hall as [|r rs' Hr _ IH]; intros ax; [done|].
  rewrite fmap_cons, !ridge_loop_cons, ridge_body_take by done.
  destruct (ridge_body vs r ax) as [ax' [e|[]]]; [done|apply IH].
Qed.

(** X8. When the loop ends normally on a ridge list it does so on every
    reordering of it, and the lines appended are the same up to their
    order. *)
Theorem X8_loop_permutation :
  ∀ (coord : Type) (vs : VertexSet coord) (rs rs' : RidgeList)
    (ax : Axes coord),
    rs ≡ₚ rs' → (ridge_loop vs rs ax).2 = inr tt →
    ∃ lines lines',
      ridge_loop vs rs ax = (ax ++ lines, inr tt)
      ∧ ridge_loop vs rs' ax = (ax ++ lines', inr tt)
      ∧ lines ≡ₚ lines'.
Proof.
  intros coord vs rs rs' ax.
  expose_lists. intros Hperm Hok.
  apply ridge_loop_normal_accepted in Hok.
  assert (Forall (ridge_accepted vs) rs') as Hok' by (by rewrite <- Hperm).
  eexists _, _. split; [by apply ridge_loop_bind|].
  split; [by apply ridge_loop_bind|]. by rewrite Hperm.
Qed.

(** X9. On ridges of the data model, rows added behind the vertex set
    change nothing.  An index counting from the end is moved by them: with
    one more row the ridge (-2, 0) starts at another vertex. *)
Theorem X9_loop_more_vertices :
  (∀ (coord : Type) (vs vs' : VertexSet coord) (rs : RidgeList)
     (ax : Axes coord),
     Forall (ridge_ok vs) rs →
     ridge_loop (vs ++ vs') rs ax = ridge_loop vs rs ax)
  ∧ ridge_loop [(0, 0); (1, 0)]%Z [[-2; 0]]%Z []
    = ([line_of ((0, 0), (0, 0))%Z], inr tt)
  ∧ ridge_loop ([(0, 0); (1, 0)] ++ [(5, 5)])%Z [[-2; 0]]%Z []
    = ([line_of ((1, 0), (0, 0))%Z], inr tt).
Proof.
  split; [|split; reflexivity]. intros coord vs vs' rs ax.
  expose_lists. intros Hall. revert ax.
  induction Hall as [|r rs Hr _ IH]; intros ax; [done|].
  rewrite !ridge_loop_cons.
  assert (ridge_body (vs ++ vs') r ax = ridge_body vs r ax) as ->.
  { destruct Hr as (i & j & -> & Hi & Hj).
    destruct (decide (sentinel ∈ [i; j])) as [Hs|Hs].
    { by rewrite !ridge_body_skip. }
    destruct Hi as [->|Hi]; [destruct Hs; left|].
    destruct Hj as [->|Hj]; [destruct Hs; right; left|].
    destruct (ndarray_getitem_valid vs i Hi) as (p & Hp & Hgp).
    destruct (ndarray_getitem_valid vs j Hj) as (q & Hq & Hgq).
    assert (∀ k p', valid_index vs k → vs !! Z.to_nat k = Some p' →
                    ndarray_getitem (vs ++ vs') k = inr p') as Hbig.
    { intros k p' Hk Hp'.
      destruct (ndarray_getitem_valid (vs ++ vs') k) as (p'' & Hp'' & Hg'').
      - unfold valid_index in *. rewrite length_app. lia.
      - expose_lists.
        rewrite lookup_app_l in Hp'' by (unfold valid_index in Hk; lia).
        congruence. }
    rewrite (ridge_body_pair vs i j p q ax),
            (ridge_body_pair (vs ++ vs') i j p q ax);
      eauto using valid_index_not_sentinel. }
  destruct (ridge_body vs r ax) as [ax' [e|[]]]; [done|apply IH].
Qed.

(** X11. An IndexError of the loop comes from a ridge of the list without
    the sentinel: one with fewer than two entries when it is raised by the
    list subscription, one with an entry outside -n <= k < n among its
    first two when it is raised by the array subscription. *)
Theorem X11_error_origin_names_fault :
  ∀ (coord : Type) (vs : VertexSet coord) (rs : RidgeList)
    (ax ax' : Axes coord) (o : index_origin),
    ridge_loop vs rs ax = (ax', inl (IndexError o)) →
    ∃ r, r ∈ rs ∧ (sentinel ∉ r) ∧ ridge_fault vs r o.
Proof.
  intros coord vs rs ax ax' o.
  revert ax. induction rs as [|r rs IH]; intros ax; [done|].
  rewrite ridge_loop_cons.
  destruct (ridge_body vs r ax) as [ax'' [[o']|[]]] eqn:Hb.
  - intros [= -> ->]. exists r. split; [left|]. by eapply ridge_body_fault.
  - intros H. destruct (IH _ H) as (r' & Hin & Hr').
    exists r'. split; [by right|done].
Qed.

(** X12. When some ridge is rejected the cell ends with the IndexError
    that the body raises on the first rejected ridge: the figure keeps the
    vertex markers and exactly the lines of the ridges before that one, its
    limits are not set and the generators are not drawn. *)
Theorem X12_manual_figure_aborts :
  ∀ (coord : Type) (tree_positions : VertexSet coord) (vor : Voronoi coord),
    ¬ Forall (ridge_accepted (vertices vor)) (ridge_vertices vor) →
    ∃ (pre : RidgeList) (r : Ridge) (post : RidgeList)
      (lines : list (Line2D coord)) (o : index_origin),
      ridge_vertices vor = pre ++ r :: post
      ∧ Forall (ridge_accepted (vertices vor)) pre
      ∧ ¬ ridge_accepted (vertices vor) r
      ∧ ridge_loop (vertices vor) pre [] = (lines, inr tt)
      ∧ ridge_body (vertices vor) r lines = (lines, inl (IndexError o))
      ∧ manual_figure tree_positions vor
        = (mkAxesState
             [mkPathCollection (column0 (vertices vor))
                (column1 (vertices vor)) "orange"]
             lines None None,
           inl (IndexError o)).
Proof.
  intros coord tp vor Hrej. rewrite manual_figure_cases.
  rewrite <- (ridge_loop_normal_accepted (vertices vor) (ridge_vertices vor) [])
    in Hrej.
  destruct (ridge_loop (vertices vor) (ridge_vertices vor) [])
    as [lines [[o]|[]]] eqn:Hrun; [|by destruct Hrej].
  destruct (ridge_loop_error_split _ _ _ _ _ Hrun)
    as (pre & r & post & Hrs & Hpre & Hr).
  exists pre, r, post, lines, o. repeat split; try done.
  - apply (ridge_loop_normal_accepted (vertices vor) pre []). by rewrite Hpre.
  - intros Hacc.
    destruct (ridge_body_accepted (vertices vor) r lines Hacc) as [ax' Hn].
    congruence.
Qed.

(** X13. When every ridge is accepted the cell completes: the figure has
    the vertex markers, then the generator markers, both limits are
    (-3, 3), and there is one line per ridge without the sentinel. *)
Theorem X13_manual_figure_completes :
  ∀ (coord : Type) (tree_positions : VertexSet coord) (vor : Voronoi coord),
    Forall (ridge_accepted (vertices vor)) (ridge_vertices vor) →
    ∃ lines,
      manual_figure tree_positions vor
      = (mkAxesState
           [mkPathCollection (column0 (vertices vor)) (column1 (vertices vor))
              "orange";
            mkPathCollection (column0 tree_positions) (column1 tree_positions)
              "blue"]
           lines (Some (-3, 3)%Z) (Some (-3, 3)%Z),
         inr tt)
      ∧ length lines = length (filter finite (ridge_vertices vor)).
Proof.
  intros coord tp vor Hacc. rewrite manual_figure_cases.
  pose proof (proj2 (ridge_loop_normal_accepted (vertices vor)
                       (ridge_vertices vor) []) Hacc) as Hok.
  destruct (ridge_loop_segments (vertices vor) (ridge_vertices vor) [])
    as (segs & Hl & _ & _ & Heq).
  destruct (ridge_loop (vertices vor) (ridge_vertices vor) [])
    as [lines [e|[]]]; [done|].
  exists lines. split; [done|]. simpl in *.
  by rewrite Hl, length_fmap, (Heq Hok).
Qed.

(** X14. Whatever the outcome of the cell, the first collection of the
    figure is the orange scatter of the vertices, its offsets being the two
    columns of [vor.vertices], and every line of the figure joins two of
    its markers. *)
Theorem X14_edges_join_vertex_markers :
  ∀ (coord : Type) (tree_positions : VertexSet coord) (vor : Voronoi coord),
    ∃ c rest,
      ax_collections (manual_figure tree_positions vor).1 = c :: rest
      ∧ facecolor c = "orange"
      ∧ offsets_x c = column0 (vertices vor)
      ∧ offsets_y c = column1 (vertices vor)
      ∧ Forall (λ l, ∃ (a b : nat) (xa ya xb yb : coord),
                  offsets_x c !! a = Some xa ∧ offsets_y c !! a = Some ya
                  ∧ offsets_x c !! b = Some xb ∧ offsets_y c !! b = Some yb
                  ∧ l = mkLine2D [xa; xb] [ya; yb])
          (ax_lines (manual_figure tree_positions vor).1).
Proof.
  intros coord tp vor. rewrite manual_figure_cases.
  destruct (ridge_loop_segments (vertices vor) (ridge_vertices vor) [])
    as (segs & Hl & Hin & _).
  assert (Forall (λ l, ∃ (a b : nat) (xa ya xb yb : coord),
            column0 (vertices vor) !! a = Some xa
            ∧ column1 (vertices vor) !! a = Some ya
            ∧ column0 (vertices vor) !! b = Some xb
            ∧ column1 (vertices vor) !! b = Some yb
            ∧ l = mkLine2D [xa; xb] [ya; yb])
          (line_of <$> segs)) as Hall.
  { apply Forall_fmap. eapply Forall_impl; [exact Hin|].
    intros [p q] [Hp Hq]. simpl in *.
    destruct (vertex_marker _ _ Hp) as (a & Ha0 & Ha1).
    destruct (vertex_marker _ _ Hq) as (b & Hb0 & Hb1).
    by exists a, b, p.1, p.2, q.1, q.2. }
  destruct (ridge_loop (vertices vor) (ridge_vertices vor) [])
    as [lines [e|[]]]; simpl in *; subst lines; eexists _, _; by repeat split.
Qed.

(** ** Concrete instances of the further properties *)

(** X1 on a ridge list with a pair, a lone sentinel and a long ridge with a
    negative index. *)
Lemma X1_witness :
  Forall (ridge_accepted [(0, 0); (1, 1)]%Z) [[0; 1]; [-1]; [-2; 0; 7]]%Z
  ∧ (ridge_loop [(0, 0); (1, 1)]%Z [[0; 1]; [-1]; [-2; 0; 7]]%Z []).2 = inr tt.
Proof.
  assert (Forall (ridge_accepted [(0, 0); (1, 1)]%Z)
            [[0; 1]; [-1]; [-2; 0; 7]]%Z) as Hacc.
  { apply Forall_cons_2; [|apply Forall_cons_2; [|apply Forall_cons_2]].
    - right. exists 0%Z, 1%Z, []. unfold in_range; simpl.
      split; [reflexivity|lia].
    - left. unfold sentinel. left.
    - right. exists (-2)%Z, 0%Z, [7%Z]. unfold in_range; simpl.
      split; [reflexivity|lia].
    - apply Forall_nil_2. }
  split; [exact Hacc|].
  exact (proj2 (X1_loop_normal_iff_accepted Z [(0, 0); (1, 1)]%Z
                  [[0; 1]; [-1]; [-2; 0; 7]]%Z []) Hacc).
Defined.

(** X2 with the ridge (0, 5) after the ridge (0, 0) on one vertex. *)
Lemma X2_witness :
  ∃ o, ∀ post : RidgeList,
    ridge_loop [(0, 0)]%Z ([[0; 0]] ++ [0; 5] :: post)%Z []
    = ([line_of ((0, 0), (0, 0))%Z], inl (IndexError o)).
Proof.
  refine (X2_loop_stops_at_first_rejected Z [(0, 0)]%Z [[0; 0]]%Z [0; 5]%Z []
            [line_of ((0, 0), (0, 0))%Z] _ _).
  - reflexivity.
  - intros [Hs|(i & j & extra & Heq & Hi & Hj)].
    + unfold sentinel in Hs. rewrite !elem_of_cons, elem_of_nil in Hs. lia.
    + injection Heq as <- <- <-. unfold in_range in Hj. simpl in Hj. lia.
Defined.

(** X4 on the three ridges of the scenario followed by a long ridge. *)
Lemma X4_witness :
  length (ridge_loop [(0, 0); (1, 0); (1, 1)]%Z
            [[0; 1]; [1; 2]; [-1; 2]; [2; 0; 9]]%Z []).1
  = length (@nil (Line2D Z))
    + length (filter finite [[0; 1]; [1; 2]; [-1; 2]; [2; 0; 9]]%Z).
Proof.
  refine (X4_line_count_on_success Z [(0, 0); (1, 0); (1, 1)]%Z
            [[0; 1]; [1; 2]; [-1; 2]; [2; 0; 9]]%Z [] _).
  reflexivity.
Defined.

(** X8 on two ridges swapped. *)
Lemma X8_witness :
  ∃ lines lines',
    ridge_loop [(0, 0); (1, 1)]%Z [[0; 1]; [1; 1]]%Z [] = ([] ++ lines, inr tt)
    ∧ ridge_loop [(0, 0); (1, 1)]%Z [[1; 1]; [0; 1]]%Z [] = ([] ++ lines', inr tt)
    ∧ lines ≡ₚ lines'.
Proof.
  refine (X8_loop_permutation Z [(0, 0); (1, 1)]%Z [[0; 1]; [1; 1]]%Z
            [[1; 1]; [0; 1]]%Z [] _ _).
  - apply perm_swap.
  - reflexivity.
Defined.

(** X9 with one row added behind two. *)
Lemma X9_witness :
  ridge_loop ([(0, 0); (1, 0)] ++ [(5, 5)])%Z [[0; 1]; [-1; 0]]%Z []
  = ridge_loop [(0, 0); (1, 0)]%Z [[0; 1]; [-1; 0]]%Z [].
Proof.
  refine (proj1 X9_loop_more_vertices Z [(0, 0); (1, 0)]%Z [(5, 5)]%Z
            [[0; 1]; [-1; 0]]%Z [] _).
  repeat constructor.
  - exists 0%Z, 1%Z. unfold valid_index; simpl. repeat split; right; lia.
  - exists (-1)%Z, 0%Z. unfold valid_index; simpl.
    repeat split; [by left|right; lia].
Defined.

(** X11 on VertexSet = [(0,0)], RidgeList = [(0,5)]. *)
Lemma X11_witness :
  ∃ r, r ∈ [[0; 5]]%Z ∧ (sentinel ∉ r)
       ∧ ridge_fault [(0, 0)]%Z r array_axis0.
Proof.
  refine (X11_error_origin_names_fault Z [(0, 0)]%Z [[0; 5]]%Z [] []
            array_axis0 _).
  reflexivity.
Defined.

(** X12 on a diagram whose second ridge names a vertex that is not
    there. *)
Lemma X12_witness :
  ∃ (pre : RidgeList) (r : Ridge) (post : RidgeList) (lines : list (Line2D Z))
    (o : index_origin),
    [[0; 0]; [0; 5]; [0; 0]]%Z = pre ++ r :: post
    ∧ Forall (ridge_accepted [(0, 0)]%Z) pre
    ∧ ¬ ridge_accepted [(0, 0)]%Z r
    ∧ ridge_loop [(0, 0)]%Z pre [] = (lines, inr tt)
    ∧ ridge_body [(0, 0)]%Z r lines = (lines, inl (IndexError o))
    ∧ manual_figure [(2, 2)]%Z
        (mkVoronoi [(0, 0)]%Z [[0; 0]; [0; 5]; [0; 0]]%Z)
      = (mkAxesState [mkPathCollection [0%Z] [0%Z] "orange"] lines None None,
         inl (IndexError o)).
Proof.
  refine (X12_manual_figure_aborts Z [(2, 2)]%Z
            (mkVoronoi [(0, 0)]%Z [[0; 0]; [0; 5]; [0; 0]]%Z) _).
  simpl. intros Hall.
  apply Forall_cons in Hall as [_ Hall]. apply Forall_cons in Hall as [Hacc _].
  destruct Hacc as [Hs|(i & j & extra & Heq & Hi & Hj)].
  - unfold sentinel in Hs. rewrite !elem_of_cons, elem_of_nil in Hs. lia.
  - injection Heq as <- <- <-. unfold in_range in Hj. simpl in Hj. lia.
Defined.

(** X13 on the three-ridge scenario with one generator. *)
Lemma X13_witness :
  ∃ lines,
    manual_figure [(2, 2)]%Z
      (mkVoronoi [(0, 0); (1, 0); (1, 1)]%Z [[0; 1]; [1; 2]; [-1; 2]]%Z)
    = (mkAxesState
         [mkPathCollection [0; 1; 1]%Z [0; 0; 1]%Z "orange";
          mkPathCollection [2%Z] [2%Z] "blue"]
         lines (Some (-3, 3)%Z) (Some (-3, 3)%Z),
       inr tt)
    ∧ length lines = length (filter finite [[0; 1]; [1; 2]; [-1; 2]]%Z).
Proof.
  refine (X13_manual_figure_completes Z [(2, 2)]%Z
            (mkVoronoi [(0, 0); (1, 0); (1, 1)]%Z [[0; 1]; [1; 2]; [-1; 2]]%Z) _).
  simpl. apply Forall_cons_2; [|apply Forall_cons_2; [|apply Forall_cons_2]].
  - right. exists 0%Z, 1%Z, []. unfold in_range; simpl.
    split; [reflexivity|lia].
  - right. exists 1%Z, 2%Z, []. unfold in_range; simpl.
    split; [reflexivity|lia].
  - left. unfold sentinel. left.
  - apply Forall_nil_2.
Defined.
